(** * Model of [src/llm_playground/utils.py]

    Two helpers: [retry_with_exponential_backoff] (a closure that retries an
    operation on rate-limit failures, sleeping an exponentially growing
    amount of time between attempts) and [timestamp_str] (the current UTC
    time rendered with [TIMESTAMP_FORMAT]).

    Modelling choices.
    - Python floats ([initial_sleep_time], [backoff_factor], [sleep_time])
      are Rocq's primitive binary64 floats: [sleep_time *= backoff_factor]
      is the rounded IEEE product, with its infinities and NaN.
    - [time.sleep] follows CPython: NaN raises [ValueError]; the duration is
      converted to whole nanoseconds, raising [OverflowError] outside the
      [int64] range, and a negative count raises [ValueError].
    - Line 58 catches only [Exception]s: each exception of the operation
      says whether it is one ([is_Exception]); the others ([KeyboardInterrupt],
      [SystemExit], ...) leave the wrapper at once.
    - Strings are Rocq strings; [str.lower] lowercases the ASCII letters.
    - The operation [func] is stateful: it runs in a world state [W] that it
      may update (a call counter, a remote quota, ...).  The wrapper threads
      this state and records every observable effect in a trace: each call
      of [func] and each [time.sleep] that returns. *)

From Stdlib Require Import String Ascii List ZArith Lia.
From Stdlib Require Import DecimalString Floats.
Import ListNotations.
Open Scope string_scope.
Open Scope bool_scope.
Local Set Warnings "-inexact-float".

(** ** Python string helpers *)

Module PyStr.

(** [c.lower()] on one character. *)
Definition lower_char (c : ascii) : ascii :=
  let n := nat_of_ascii c in
  if (65 <=? n)%nat && (n <=? 90)%nat then ascii_of_nat (n + 32) else c.

(** [s.lower()] *)
Fixpoint lower (s : string) : string :=
  match s with
  | EmptyString => EmptyString
  | String c r => String (lower_char c) (lower r)
  end.

(** [s.replace(old_c, new_c)] for one-character [old_c] and [new_c]. *)
Fixpoint replace_char (old_c new_c : ascii) (s : string) : string :=
  match s with
  | EmptyString => EmptyString
  | String c r =>
      String (if Ascii.eqb c old_c then new_c else c) (replace_char old_c new_c r)
  end.

(** [sub in s] *)
Fixpoint contains (sub s : string) : bool :=
  match s with
  | EmptyString => String.prefix sub s
  | String _ r => String.prefix sub s || contains sub r
  end.

(** [str(n)] for a Python [int]. *)
Definition str_of_int (n : Z) : string :=
  NilEmpty.string_of_int (Z.to_int n).

End PyStr.

(** ** [retry_with_exponential_backoff] *)

Module Retry.

(** What a call of the wrapper can raise: an exception [e] of [func] (re-raised
    by line 63, or never caught by line 58 when it is not an [Exception]),
    the [Exception] built by line 65 when the retries are exhausted (only its
    message is kept), or what [time.sleep] raises: [ValueError] or
    [OverflowError], with the duration it was given. *)
Inductive exn (E : Type) : Type :=
| Reraised (e : E)
| MaxRetriesExceeded (msg : string)
| SleepValueError (secs : float)
| SleepOverflowError (secs : float).
Arguments Reraised {E} e.
Arguments MaxRetriesExceeded {E} msg.
Arguments SleepValueError {E} secs.
Arguments SleepOverflowError {E} secs.

(** Observable effects of one call of the wrapper, in order: each call of
    [func] and each [time.sleep] that returns. *)
Inductive event (A : Type) : Type :=
| Call (args : A)
| Sleep (secs : float).
Arguments Call {A} args.
Arguments Sleep {A} secs.

(** [isinstance(e, Exception)] for the exceptions of [func]. *)
Class PyException (E : Type) := is_Exception : E -> bool.

(** [pytime_round(d, _PyTime_ROUND_UP)] of CPython's [pytime.c] on a double
    [d] that is not NaN, as an exact integer: [ceil(d)] when [d >= 0],
    [floor(d)] otherwise; [None] for the infinities.  [Prim2SF] gives the
    exact value [(-1)^s * m * 2^e] of [d]. *)
Definition round_up (d : float) : option Z :=
  match Prim2SF d with
  | S754_zero _ => Some 0%Z
  | S754_finite s m e =>
      let mag := if (0 <=? e)%Z then (Z.pos m * 2 ^ e)%Z
                 else (- (- Z.pos m / 2 ^ (- e)))%Z in
      Some (if s then (- mag)%Z else mag)
  | _ => None
  end.

(** [_PyTime_MIN], the least [int64] count of nanoseconds. *)
Definition PyTime_MIN : Z := (- 2 ^ 63)%Z.

(** [time.sleep(secs)] for a float [secs] ([time_sleep] in CPython's
    [timemodule.c], through [pytime_from_object] and [pytime_from_double] of
    [pytime.c], with [_PyTime_ROUND_TIMEOUT = _PyTime_ROUND_UP]):
    - NaN raises [ValueError("Invalid value NaN (not a number)")];
    - [d = secs * 1e9] is rounded away from zero; unless
      [(double)_PyTime_MIN <= d < -(double)_PyTime_MIN] it raises
      [OverflowError] (the infinities included);
    - a negative count raises [ValueError("sleep length must be
      non-negative")];
    - otherwise the call sleeps and returns: [None]. *)
Definition time_sleep {E : Type} (secs : float) : option (exn E) :=
  if PrimFloat.is_nan secs then Some (SleepValueError secs)
  else
    match round_up (secs * 1e9)%float with
    | Some ns =>
        if (PyTime_MIN <=? ns)%Z && (ns <? - PyTime_MIN)%Z then
          if (ns <? 0)%Z then Some (SleepValueError secs) else None
        else Some (SleepOverflowError secs)
    | None => Some (SleepOverflowError secs)
    end.

(** The test of line 59: ["rate limit" in str(e).lower().replace("_", " ")]. *)
Definition is_rate_limit (msg : string) : bool :=
  PyStr.contains "rate limit" (PyStr.replace_char "_" " " (PyStr.lower msg)).

(** The message of line 65: [f"Maximum retries {max_retries} exceeded"]. *)
Definition max_retries_msg (max_retries : Z) : string :=
  "Maximum retries " ++ PyStr.str_of_int max_retries ++ " exceeded".

Section Wrapper.

(** [A]: the positional and keyword arguments of one call; [R]: the result
    of [func]; [E]: the exceptions [func] raises, [str_of] is [str(e)];
    [W]: the world state [func] runs in. *)
Context {A R E W : Type} `{PyException E}.
Variable str_of : E -> string.

(** The closure's captured variables. *)
Variable func : A -> W -> W * (R + E).
Variable max_retries : Z.
Variable initial_sleep_time : float.
Variable backoff_factor : float.

(** The [for] loop of lines 55-63 with [n] iterations left; [sleep_time]
    is the local variable of line 53.  An exception of [func] that is not an
    [Exception] is not caught by line 58 and leaves the loop. *)
Fixpoint wrapper_loop (n : nat) (sleep_time : float) (args : A) (s : W)
  : list (event A) * W * (R + exn E) :=
  match n with
  | O => ([], s, inr (MaxRetriesExceeded (max_retries_msg max_retries)))
  | S n' =>
      match func args s with
      | (s1, inl r) => ([Call args], s1, inl r)
      | (s1, inr e) =>
          if is_Exception e then
            if is_rate_limit (str_of e) then
              let sleep_time' := (sleep_time * backoff_factor)%float in
              match time_sleep sleep_time' with
              | Some err => ([Call args], s1, inr err)
              | None =>
                  let '(tr, s2, res) := wrapper_loop n' sleep_time' args s1 in
                  (Call args :: Sleep sleep_time' :: tr, s2, res)
              end
            else ([Call args], s1, inr (Reraised e))
          else ([Call args], s1, inr (Reraised e))
      end
  end.

(** [wrapper( *args, **kwargs)]: [range(max_retries)] is empty when
    [max_retries <= 0]. *)
Definition wrapper (args : A) (s : W) : list (event A) * W * (R + exn E) :=
  wrapper_loop (Z.to_nat max_retries) initial_sleep_time args s.

(** The world state after [i] successive calls of [func args] from [s]:
    how the operation behaves when it is called again and again. *)
Fixpoint state_after (args : A) (i : nat) (s : W) : W :=
  match i with
  | O => s
  | S i' => state_after args i' (fst (func args s))
  end.

(** What the [i]-th call (from 0) of [func args] returns or raises. *)
Definition outcome_at (args : A) (i : nat) (s : W) : R + E :=
  snd (func args (state_after args i s)).

(** The value of [sleep_time] after [k] executions of line 60. *)
Fixpoint sleep_time_after (sleep_time : float) (k : nat) : float :=
  match k with
  | O => sleep_time
  | S k' => sleep_time_after (sleep_time * backoff_factor)%float k'
  end.

End Wrapper.

(** A trace of failed attempts, each followed by its sleep. *)
Definition failed_attempts {A : Type} (args : A) (ds : list float) : list (event A) :=
  flat_map (fun d => [Call args; Sleep d]) ds.

(** Number of calls of [func] in a trace. *)
Definition calls {A : Type} (tr : list (event A)) : nat :=
  length (filter (fun ev => match ev with Call _ => true | Sleep _ => false end) tr).

(** Durations passed to [time.sleep] in a trace, in order. *)
Fixpoint delays {A : Type} (tr : list (event A)) : list float :=
  match tr with
  | [] => []
  | Call _ :: tr' => delays tr'
  | Sleep d :: tr' => d :: delays tr'
  end.

(** Operations used as concrete inputs.  Their world state counts the calls
    made so far.  Most raise [Exception(msg)], represented by its message
    ([str_of] is the identity). *)
#[global] Instance string_is_Exception : PyException string := fun _ => true.

Definition msg_of (e : string) : string := e.

(** Exceptions that are not all [Exception]s. *)
Inductive py_error : Type :=
| PyExc (msg : string)
| KeyboardInterrupt (msg : string).

#[global] Instance py_error_is_Exception : PyException py_error :=
  fun e => match e with PyExc _ => true | KeyboardInterrupt _ => false end.

(** [str(e)] *)
Definition py_str (e : py_error) : string :=
  match e with PyExc msg | KeyboardInterrupt msg => msg end.

(** Raises [Exception(msg)] on its first [k] calls, then returns [r]. *)
Definition fail_then_return (msg : string) (k r : nat) (_ : unit) (n : nat)
  : nat * (nat + string) :=
  (S n, if (n <? k)%nat then inr msg else inl r).

(** Always raises [e]. *)
Definition always_raise {E : Type} (e : E) (_ : unit) (n : nat) : nat * (nat + E) :=
  (S n, inr e).

(** The [n]-th call returns or raises [nth n outs]; later calls return 0. *)
Definition scripted {E : Type} (outs : list (nat + E)) (_ : unit) (n : nat)
  : nat * (nat + E) :=
  (S n, nth n outs (inl 0%nat)).

End Retry.


(** ** [timestamp_str] *)

Module Timestamp.
Local Open Scope Z_scope.

(** Line 10. *)
Definition TIMESTAMP_FORMAT : string := "%Y-%m-%d_%H%M%S".

(** The fields of a [datetime.datetime] that [strftime] reads here (its
    microseconds are never printed by [TIMESTAMP_FORMAT]). *)
Record datetime := mk_datetime {
  year : Z; month : Z; day : Z; hour : Z; minute : Z; second : Z }.

(** [datetime.MAXYEAR] *)
Definition MAXYEAR : Z := 9999.

(** The proleptic Gregorian calendar of [datetime]. *)
Definition is_leap (y : Z) : bool :=
  ((y mod 4 =? 0) && negb (y mod 100 =? 0)) || (y mod 400 =? 0).

Definition days_in_year (y : Z) : Z := if is_leap y then 366 else 365.

Definition days_in_month (y m : Z) : Z :=
  if m =? 2 then (if is_leap y then 29 else 28)
  else if (m =? 4) || (m =? 6) || (m =? 9) || (m =? 11) then 30
  else 31.

(** Write [z] units as whole blocks of sizes [len i], [len (i+1)], ...
    followed by a remainder: returns the index of the block [z] falls in and
    the offset inside it.  At most [fuel] blocks are skipped. *)
Fixpoint split_units (len : Z -> Z) (i z : Z) (fuel : nat) : Z * Z :=
  match fuel with
  | O => (i, z)
  | S fuel' =>
      if z <? len i then (i, z) else split_units len (i + 1) (z - len i) fuel'
  end.

(** Calendar date of the day [days] after 1970-01-01 (every year has at least
    365 days, so [days / 365 + 1] years are enough to skip). *)
Definition ymd_of_days (days : Z) : Z * Z * Z :=
  let '(y, doy) := split_units days_in_year 1970 days (S (Z.to_nat (days / 365))) in
  let '(m, dom) := split_units (days_in_month y) 1 doy 12 in
  (y, m, dom + 1).

(** [datetime.datetime.now(datetime.timezone.utc)] when the clock reads [t]
    whole seconds after the Unix epoch; [None] when [datetime] raises because
    the year would exceed [MAXYEAR].  CPython reads the clock as an [int64]
    count of nanoseconds, so the readings it can deliver stay below
    [2^63] ns (in the year 2262), where this branch is never taken; the
    theorems below that use [now_utc] all assume it returned a value. *)
Definition now_utc (t : N) : option datetime :=
  let t := Z.of_N t in
  let days := t / 86400 in
  let sod := t mod 86400 in
  let '(y, m, d) := ymd_of_days days in
  if MAXYEAR <? y then None
  else Some (mk_datetime y m d (sod / 3600) (sod mod 3600 / 60) (sod mod 60)).

(** The decimal digit [d] as a character. *)
Definition digit_char (d : Z) : ascii := ascii_of_nat (48 + Z.to_nat d).

(** The [w] last decimal digits of [n], most significant first. *)
Fixpoint digits (w : nat) (n : Z) : string :=
  match w with
  | O => EmptyString
  | S w' => String (digit_char (n / 10 ^ Z.of_nat w')) (digits w' (n mod 10 ^ Z.of_nat w'))
  end.

(** C's [%0*d]: [n] zero-padded to width [w], never truncated. *)
Definition fmt_num (w : nat) (n : Z) : string :=
  if (0 <=? n) && (n <? 10 ^ Z.of_nat w) then digits w n else PyStr.str_of_int n.

(** One [strftime] directive [%c]. *)
Definition directive (c : ascii) (dt : datetime) : string :=
  if Ascii.eqb c "Y" then fmt_num 4 (year dt)
  else if Ascii.eqb c "m" then fmt_num 2 (month dt)
  else if Ascii.eqb c "d" then fmt_num 2 (day dt)
  else if Ascii.eqb c "H" then fmt_num 2 (hour dt)
  else if Ascii.eqb c "M" then fmt_num 2 (minute dt)
  else if Ascii.eqb c "S" then fmt_num 2 (second dt)
  else if Ascii.eqb c "%" then "%"
  else String "%" (String c EmptyString).

(** [dt.strftime(fmt)] for the directives above; other characters are
    copied. *)
Fixpoint strftime (fmt : string) (dt : datetime) : string :=
  match fmt with
  | String "%" (String c rest) => directive c dt ++ strftime rest dt
  | String c rest => String c (strftime rest dt)
  | EmptyString => EmptyString
  end.

(** Lines 13-19, the clock reading [t] being the hidden input. *)
Definition timestamp_str (t : N) : option string :=
  option_map (strftime TIMESTAMP_FORMAT) (now_utc t).

(** The pattern [YYYY-MM-DD_HHMMSS]: each of the letters [Y M D H S] stands
    for one decimal digit, other characters for themselves. *)
Definition PATTERN : string := "YYYY-MM-DD_HHMMSS".

Definition is_digit (c : ascii) : bool :=
  (48 <=? nat_of_ascii c)%nat && (nat_of_ascii c <=? 57)%nat.

Definition is_placeholder (p : ascii) : bool :=
  Ascii.eqb p "Y" || Ascii.eqb p "M" || Ascii.eqb p "D" || Ascii.eqb p "H" || Ascii.eqb p "S".

Fixpoint matches (pat s : string) : bool :=
  match pat, s with
  | EmptyString, EmptyString => true
  | String p pat', String c s' =>
      (if is_placeholder p then is_digit c else Ascii.eqb p c) && matches pat' s'
  | _, _ => false
  end.

(** Total size of the blocks [len i], ..., [len (i + n - 1)]. *)
Fixpoint span (len : Z -> Z) (i : Z) (n : nat) : Z :=
  match n with
  | O => 0
  | S n' => len i + span len (i + 1) n'
  end.

End Timestamp.

(** * Proofs about the retry wrapper *)

Module RetryProofs.
Import Retry.
Local Open Scope list_scope.

Lemma calls_failed_attempts {A : Type} (args : A) ds tr :
  calls (failed_attempts args ds ++ tr) = (length ds + calls tr)%nat.
Proof.
  induction ds as [|d ds IH]; simpl; [reflexivity|].
  unfold calls in *; simpl. rewrite IH. reflexivity.
Qed.

Lemma delays_failed_attempts {A : Type} (args : A) ds tr :
  delays (failed_attempts args ds ++ tr) = ds ++ delays tr.
Proof.
  induction ds as [|d ds IH]; simpl; [reflexivity|]. rewrite IH. reflexivity.
Qed.

(** [time.sleep] raises nothing but [ValueError] and [OverflowError]. *)
Lemma time_sleep_some {E : Type} (d : float) (err : exn E) :
  time_sleep d = Some err -> err = SleepValueError d \/ err = SleepOverflowError d.
Proof.
  unfold time_sleep. destruct (PrimFloat.is_nan d); [intros H; injection H as <-; left; reflexivity|].
  destruct (round_up (d * 1e9)%float) as [ns|]; [|intros H; injection H as <-; right; reflexivity].
  destruct ((PyTime_MIN <=? ns)%Z && (ns <? - PyTime_MIN)%Z)%bool;
    [|intros H; injection H as <-; right; reflexivity].
  destruct (ns <? 0)%Z; [intros H; injection H as <-; left; reflexivity | discriminate].
Qed.

Section Loop.
Context {A R E W : Type} `{HE : PyException E}.
Variable str_of : E -> string.
Variable func : A -> W -> W * (R + E).
Variable max_retries : Z.
Variable backoff_factor : float.
Variable args : A.

Local Abbreviation loop := (wrapper_loop str_of func max_retries backoff_factor).

(** One iteration of the loop, as lines 56-63 read. *)
Lemma loop_step (n : nat) (st : float) (s : W) :
  loop (S n) st args s =
  match func args s with
  | (s1, inl r) => ([Call args], s1, inl r)
  | (s1, inr e) =>
      if is_Exception e then
        if is_rate_limit (str_of e) then
          match @time_sleep E (st * backoff_factor)%float with
          | Some err => ([Call args], s1, inr err)
          | None =>
              let '(tr, s2, res) := loop n (st * backoff_factor)%float args s1 in
              (Call args :: Sleep (st * backoff_factor)%float :: tr, s2, res)
          end
        else ([Call args], s1, inr (Reraised e))
      else ([Call args], s1, inr (Reraised e))
  end.
Proof. reflexivity. Qed.

(** [k] rate-limit [Exception]s in a row, each followed by a sleep that
    returns, take [k] iterations of the loop. *)
Lemma loop_rate_limited (k : nat) : forall n st s,
  (k <= n)%nat ->
  (forall i, (i < k)%nat -> exists e,
      outcome_at func args i s = inr e /\ is_Exception e = true
      /\ is_rate_limit (str_of e) = true) ->
  (forall i, (1 <= i <= k)%nat ->
      @time_sleep E (sleep_time_after backoff_factor st i) = None) ->
  loop n st args s =
  let '(tr, s', res) :=
    loop (n - k) (sleep_time_after backoff_factor st k) args (state_after func args k s) in
  (failed_attempts args (map (sleep_time_after backoff_factor st) (seq 1 k)) ++ tr, s', res).
Proof.
  induction k as [|k IH]; intros n st s Hk Hfail Hsl.
  - rewrite Nat.sub_0_r. simpl. destruct (loop n st args s) as [[tr s'] res]. reflexivity.
  - destruct n as [|n]; [lia|].
    destruct (Hfail 0%nat ltac:(lia)) as [e [He [Hx Hrl]]].
    unfold outcome_at in He. simpl in He.
    rewrite loop_step.
    destruct (func args s) as [s1 o] eqn:Hf. simpl in He. subst o.
    rewrite Hx, Hrl.
    assert (Hs1 : @time_sleep E (st * backoff_factor)%float = None)
      by exact (Hsl 1%nat ltac:(lia)).
    rewrite Hs1.
    rewrite (IH n (st * backoff_factor)%float s1).
    + assert (Hmap : map (sleep_time_after backoff_factor (st * backoff_factor)%float) (seq 1 k)
                     = map (sleep_time_after backoff_factor st) (seq 2 k))
        by (rewrite <- (seq_shift k 1), map_map; reflexivity).
      rewrite Hmap. simpl state_after. rewrite Hf. simpl.
      destruct (loop (n - k) (sleep_time_after backoff_factor (st * backoff_factor)%float k) args
                  (state_after func args k s1)) as [[tr s'] res].
      reflexivity.
    + lia.
    + intros i Hi. destruct (Hfail (S i) ltac:(lia)) as [e' [He' Hrl']].
      exists e'. split; [|exact Hrl'].
      unfold outcome_at in *. simpl in He'. rewrite Hf in He'. exact He'.
    + intros i Hi. exact (Hsl (S i) ltac:(lia)).
Qed.

End Loop.

Lemma state_after_succ_r {A R E W : Type} (func : A -> W -> W * (R + E)) args i s :
  state_after func args (S i) s = fst (func args (state_after func args i s)).
Proof.
  revert s; induction i as [|i IH]; intros s; [reflexivity|].
  change (state_after func args (S (S i)) s)
    with (state_after func args (S i) (fst (func args s))).
  rewrite IH. reflexivity.
Qed.

Lemma prefix_app (sub q : string) : String.prefix sub (sub ++ q) = true.
Proof.
  induction sub as [|c sub IH]; simpl; [destruct q; reflexivity|].
  destruct (ascii_dec c c) as [_|n]; [exact IH|congruence].
Qed.

Lemma contains_app (sub p q : string) : PyStr.contains sub (p ++ sub ++ q) = true.
Proof.
  induction p as [|c p IH]; simpl.
  - pose proof (prefix_app sub q) as Hp.
    destruct (sub ++ q)%string; [exact Hp|].
    apply Bool.orb_true_iff. left. exact Hp.
  - rewrite IH. apply Bool.orb_true_r.
Qed.

Lemma max_retries_msg_contains (m : Z) :
  PyStr.contains (PyStr.str_of_int m) (max_retries_msg m) = true.
Proof. unfold max_retries_msg. apply contains_app. Qed.

Section Claims.
Context {A R E W : Type} `{HE : PyException E}.
Variable str_of : E -> string.
Variable func : A -> W -> W * (R + E).
Variable max_retries : Z.
Variable initial_sleep_time backoff_factor : float.
Variable args : A.

Local Abbreviation loop := (wrapper_loop str_of func max_retries backoff_factor).


(** ** C1 (corrected) *)


Lemma calls_failed_attempts_nil (ds : list float) :
  calls (failed_attempts args ds) = length ds.
Proof.
  rewrite <- (app_nil_r (failed_attempts args ds)), calls_failed_attempts.
  unfold calls. simpl. lia.
Qed.

Lemma delays_failed_attempts_nil (ds : list float) :
  delays (failed_attempts args ds) = ds.
Proof.
  rewrite <- (app_nil_r (failed_attempts args ds)), delays_failed_attempts.
  simpl. apply app_nil_r.
Qed.

(** ** C2 (corrected) *)


(** ** C9 (corrected) *)


(** ** C3 (corrected) *)

(** C3: when the call made on attempt [k + 1] ([k + 1 <= max_retries], the
    [k] calls before it having raised rate-limit [Exception]s followed by
    sleeps that returned) raises an exception [e] that is not
    rate-limit-classified, or is not an [Exception] at all, the wrapper
    raises [e] itself, the trace ending with that call: no sleep after it
    and no further call.  With [k = 0]: such a failure of the first call is
    raised after exactly one call. *)
Theorem wrapper_reraises_other_exceptions (s : W) (k : nat) (e : E) :
  (Z.of_nat k < max_retries)%Z ->
  (forall i, (i < k)%nat -> exists e',
      outcome_at func args i s = inr e' /\ is_Exception e' = true
      /\ is_rate_limit (str_of e') = true) ->
  (forall i, (1 <= i <= k)%nat ->
      @time_sleep E (sleep_time_after backoff_factor initial_sleep_time i) = None) ->
  outcome_at func args k s = inr e ->
  (is_Exception e = false \/ is_rate_limit (str_of e) = false) ->
  exists ds,
    wrapper str_of func max_retries initial_sleep_time backoff_factor args s = (failed_attempts args ds ++ [Call args], state_after func args (S k) s,
             inr (Reraised e))
    /\ length ds = k
    /\ calls (failed_attempts args ds ++ [Call args]) = S k.
Proof.
  intros Hk Hfail Hsl He Hnr.
  exists (map (sleep_time_after backoff_factor initial_sleep_time) (seq 1 k)).
  split; [|split].
  - unfold wrapper.
    rewrite (loop_rate_limited str_of func max_retries backoff_factor args k);
      [| lia | exact Hfail | exact Hsl].
    destruct (Z.to_nat max_retries - k)%nat as [|m] eqn:Hm; [lia|].
    rewrite loop_step. unfold outcome_at in He.
    rewrite state_after_succ_r.
    destruct (func args (state_after func args k s)) as [s1 o] eqn:Hf.
    simpl in He. subst o.
    destruct Hnr as [Hx|Hrl]; [rewrite Hx; reflexivity|].
    destruct (is_Exception e); [rewrite Hrl|]; reflexivity.
  - rewrite length_map, length_seq. reflexivity.
  - rewrite calls_failed_attempts, length_map, length_seq. unfold calls. simpl. lia.
Qed.

(** ** C5 (corrected) *)

(** C5: when [max_retries >= 1] and the first call [func( *args, **kwargs)]
    returns [r], the wrapper returns that same [r]: one call, made with the
    caller's arguments, and no sleep. *)
Theorem wrapper_returns_first_success (s s1 : W) (r : R) :
  (1 <= max_retries)%Z ->
  func args s = (s1, inl r) ->
  wrapper str_of func max_retries initial_sleep_time backoff_factor args s = ([Call args], s1, inl r) /\ delays [@Call A args] = [].
Proof.
  intros Hm Hf. split; [|reflexivity].
  unfold wrapper. destruct (Z.to_nat max_retries) as [|n] eqn:Hn; [lia|].
  rewrite loop_step, Hf. reflexivity.
Qed.

(** ** C8 (confirmed) *)

(** C8: when [max_retries <= 0] the wrapper raises the exhausted-retries
    exception at once, without calling the operation and without sleeping;
    its message contains [str(max_retries)]. *)
Theorem wrapper_nonpositive_max_retries (s : W) :
  (max_retries <= 0)%Z ->
  wrapper str_of func max_retries initial_sleep_time backoff_factor args s = ([], s, inr (MaxRetriesExceeded (max_retries_msg max_retries)))
  /\ PyStr.contains (PyStr.str_of_int max_retries) (max_retries_msg max_retries) = true.
Proof.
  intros Hm. split; [|apply max_retries_msg_contains].
  unfold wrapper. replace (Z.to_nat max_retries) with 0%nat by lia. reflexivity.
Qed.

(** ** C10 (confirmed) *)

Lemma loop_calls_with_args : forall n st s,
  Forall (fun ev => match ev with Call a => a = args | Sleep _ => True end)
         (fst (fst (loop n st args s))).
Proof.
  induction n as [|n IH]; intros st s; [constructor|].
  rewrite loop_step. destruct (func args s) as [s1 [r|e]].
  - repeat constructor.
  - destruct (is_Exception e); [|repeat constructor].
    destruct (is_rate_limit (str_of e)); [|repeat constructor].
    destruct (@time_sleep E (st * backoff_factor)%float); [repeat constructor|].
    specialize (IH (st * backoff_factor)%float s1).
    destruct (loop n (st * backoff_factor)%float args s1) as [[tr s2] res].
    simpl in *. repeat constructor. exact IH.
Qed.

(** C10: every call of the operation made by one call of the wrapper, the
    retries included, receives exactly the arguments the caller passed. *)
Theorem wrapper_forwards_same_args (s : W) :
  Forall (fun ev => match ev with Call a => a = args | Sleep _ => True end)
         (fst (fst (wrapper str_of func max_retries initial_sleep_time backoff_factor args s))).
Proof. apply loop_calls_with_args. Qed.

(** ** C4 (corrected) *)

(** C4: for a failure that is an [Exception] (the only failures line 58
    catches), the only test deciding between retrying and re-raising is
    [is_rate_limit] of its message, i.e. whether
    [str(e).lower().replace("_", " ")] contains ["rate limit"]; it accepts
    ["Rate Limit exceeded"], ["RATE_LIMIT"] and ["rate limit"] and rejects
    ["ratelimit"], which is re-raised by the attempt that meets it.  A
    retried failure is followed by [time.sleep] of the next [sleep_time],
    whose own exception, if any, leaves the wrapper.  A failure that is not
    an [Exception] leaves the wrapper at once, whatever its message. *)
Theorem rate_limit_classification :
  (is_rate_limit "Rate Limit exceeded" = true /\ is_rate_limit "RATE_LIMIT" = true
   /\ is_rate_limit "rate limit" = true /\ is_rate_limit "ratelimit" = false)
  /\ (forall msg, is_rate_limit msg
       = PyStr.contains "rate limit" (PyStr.replace_char "_" " " (PyStr.lower msg)))
  /\ (forall n st s s1 e, func args s = (s1, inr e) -> is_Exception e = true ->
       is_rate_limit (str_of e) = false ->
       loop (S n) st args s = ([Call args], s1, inr (Reraised e)))
  /\ (forall n st s s1 e, func args s = (s1, inr e) -> is_Exception e = true ->
       is_rate_limit (str_of e) = true ->
       loop (S n) st args s =
       match @time_sleep E (st * backoff_factor)%float with
       | Some err => ([Call args], s1, inr err)
       | None =>
           let '(tr, s2, res) := loop n (st * backoff_factor)%float args s1 in
           (Call args :: Sleep (st * backoff_factor)%float :: tr, s2, res)
       end)
  /\ (forall n st s s1 e, func args s = (s1, inr e) -> is_Exception e = true ->
       str_of e = "ratelimit" ->
       loop (S n) st args s = ([Call args], s1, inr (Reraised e)))
  /\ (forall n st s s1 e, func args s = (s1, inr e) -> is_Exception e = false ->
       loop (S n) st args s = ([Call args], s1, inr (Reraised e))).
Proof.
  split; [repeat split; reflexivity|].
  split; [reflexivity|].
  split; [|split; [|split]].
  - intros n st s s1 e Hf Hx Hrl. rewrite loop_step, Hf, Hx, Hrl. reflexivity.
  - intros n st s s1 e Hf Hx Hrl. rewrite loop_step, Hf, Hx, Hrl. reflexivity.
  - intros n st s s1 e Hf Hx Hmsg. rewrite loop_step, Hf, Hx, Hmsg. reflexivity.
  - intros n st s s1 e Hf Hx. rewrite loop_step, Hf, Hx. reflexivity.
Qed.

End Claims.

(** ** Every run of the wrapper *)

Lemma str_app_assoc (a b c : string) : ((a ++ b) ++ c)%string = (a ++ (b ++ c))%string.
Proof. induction a as [|x a IH]; simpl; [reflexivity|]. rewrite IH. reflexivity. Qed.

Lemma lower_app (a b : string) : PyStr.lower (a ++ b) = (PyStr.lower a ++ PyStr.lower b)%string.
Proof. induction a as [|x a IH]; simpl; [reflexivity|]. rewrite IH. reflexivity. Qed.

Lemma replace_char_app (o n : ascii) (a b : string) :
  PyStr.replace_char o n (a ++ b) = (PyStr.replace_char o n a ++ PyStr.replace_char o n b)%string.
Proof. induction a as [|x a IH]; simpl; [reflexivity|]. rewrite IH. reflexivity. Qed.

Lemma prefix_split (sub : string) : forall y,
  String.prefix sub y = true -> exists b, y = (sub ++ b)%string.
Proof.
  induction sub as [|c sub IH]; intros y H.
  - exists y. reflexivity.
  - destruct y as [|c' y]; [discriminate|]. simpl in H.
    destruct (ascii_dec c c') as [<-|]; [|discriminate].
    destruct (IH y H) as [b ->]. exists b. reflexivity.
Qed.

Lemma contains_split (sub x : string) :
  PyStr.contains sub x = true -> exists a b, x = (a ++ sub ++ b)%string.
Proof.
  induction x as [|c x IH]; intros H.
  - destruct sub as [|c sub]; [|discriminate]. exists EmptyString, EmptyString. reflexivity.
  - simpl in H. apply Bool.orb_true_iff in H. destruct H as [H|H].
    + destruct (prefix_split sub (String c x) H) as [b Hb].
      exists EmptyString, b. exact Hb.
    + destruct (IH H) as (a & b & ->). exists (String c a), b. reflexivity.
Qed.

Section Runs.
Context {A R E W : Type} `{HE : PyException E}.
Variable str_of : E -> string.
Variable func : A -> W -> W * (R + E).
Variable max_retries : Z.
Variable initial_sleep_time backoff_factor : float.
Variable args : A.

Local Abbreviation loop := (wrapper_loop str_of func max_retries backoff_factor).

Lemma outcome_at_S (s s1 : W) (o : R + E) (i : nat) :
  func args s = (s1, o) -> outcome_at func args (S i) s = outcome_at func args i s1.
Proof. intros Hf. unfold outcome_at. simpl. rewrite Hf. reflexivity. Qed.

Lemma state_after_S (s s1 : W) (o : R + E) (i : nat) :
  func args s = (s1, o) -> state_after func args (S i) s = state_after func args i s1.
Proof. intros Hf. simpl. rewrite Hf. reflexivity. Qed.

(** Every run of the loop: a sequence of rate-limit [Exception]s each
    followed by its sleep, then one of the five ways out of the loop. *)
Lemma loop_run (n : nat) : forall st s,
  let '(tr, s', res) := loop n st args s in
  exists ds tail,
    tr = failed_attempts args ds ++ tail
    /\ ds = map (sleep_time_after backoff_factor st) (seq 1 (length ds))
    /\ (forall i, (i < length ds)%nat -> exists e,
          outcome_at func args i s = inr e /\ is_Exception e = true
          /\ is_rate_limit (str_of e) = true)
    /\ match res with
       | inl r =>
           tail = [Call args] /\ (length ds < n)%nat
           /\ outcome_at func args (length ds) s = inl r
           /\ s' = state_after func args (S (length ds)) s
       | inr (Reraised e) =>
           tail = [Call args] /\ (length ds < n)%nat
           /\ outcome_at func args (length ds) s = inr e
           /\ (is_Exception e = false \/ is_rate_limit (str_of e) = false)
           /\ s' = state_after func args (S (length ds)) s
       | inr (MaxRetriesExceeded msg) =>
           tail = [] /\ length ds = n
           /\ msg = max_retries_msg max_retries
           /\ s' = state_after func args (length ds) s
       | inr (SleepValueError d) =>
           tail = [Call args] /\ (length ds < n)%nat
           /\ (exists e, outcome_at func args (length ds) s = inr e
                         /\ is_Exception e = true /\ is_rate_limit (str_of e) = true)
           /\ @time_sleep E (sleep_time_after backoff_factor st (S (length ds)))
              = Some (SleepValueError d)
           /\ s' = state_after func args (S (length ds)) s
       | inr (SleepOverflowError d) =>
           tail = [Call args] /\ (length ds < n)%nat
           /\ (exists e, outcome_at func args (length ds) s = inr e
                         /\ is_Exception e = true /\ is_rate_limit (str_of e) = true)
           /\ @time_sleep E (sleep_time_after backoff_factor st (S (length ds)))
              = Some (SleepOverflowError d)
           /\ s' = state_after func args (S (length ds)) s
       end.
Proof.
  induction n as [|n IH]; intros st s.
  - simpl. exists [], []. split; [reflexivity|]. split; [reflexivity|].
    split; [intros i Hi; simpl in Hi; lia|]. repeat split.
  - rewrite loop_step.
    assert (Hout0 : forall o s1, func args s = (s1, o) -> outcome_at func args 0 s = o)
      by (intros o s1 Hf; unfold outcome_at; simpl; rewrite Hf; reflexivity).
    assert (Hst1 : forall o s1, func args s = (s1, o) -> state_after func args 1 s = s1)
      by (intros o s1 Hf; simpl; rewrite Hf; reflexivity).
    destruct (func args s) as [s1 [r|e]] eqn:Hf.
    + exists [], [Call args]. split; [reflexivity|]. split; [reflexivity|].
      split; [intros i Hi; simpl in Hi; lia|].
      split; [reflexivity|]. split; [simpl; lia|].
      split; [exact (Hout0 _ _ eq_refl)|]. symmetry. exact (Hst1 _ _ eq_refl).
    + destruct (is_Exception e) eqn:Hx; [destruct (is_rate_limit (str_of e)) eqn:Hrl|].
      * destruct (@time_sleep E (st * backoff_factor)%float) as [err|] eqn:Hts.
        -- destruct (time_sleep_some _ _ Hts) as [->| ->];
             exists [], [Call args]; (split; [reflexivity|]); (split; [reflexivity|]);
             (split; [intros i Hi; simpl in Hi; lia|]);
             (split; [reflexivity|]); (split; [simpl; lia|]);
             (split; [exists e; split; [exact (Hout0 _ _ eq_refl) | split; assumption]|]);
             (split; [exact Hts|]); symmetry; exact (Hst1 _ _ eq_refl).
        -- specialize (IH (st * backoff_factor)%float s1).
           destruct (loop n (st * backoff_factor)%float args s1) as [[tr s2] res].
           destruct IH as (ds & tail & Htr & Hds & Hfail & Hres).
           exists ((st * backoff_factor)%float :: ds), tail.
           split; [rewrite Htr; reflexivity|].
           split.
           { simpl. f_equal. rewrite <- seq_shift, map_map. exact Hds. }
           split.
           { intros [|i] Hi.
             - exists e. split; [exact (Hout0 _ _ eq_refl) | split; assumption].
             - rewrite (outcome_at_S s s1 (inr e) i Hf). apply Hfail. simpl in Hi. lia. }
           change (length ((st * backoff_factor)%float :: ds)) with (S (length ds)).
           rewrite !(outcome_at_S s s1 (inr e) _ Hf).
           rewrite !(state_after_S s s1 (inr e) _ Hf).
           destruct res as [r|[e'|msg|d|d]]; cbv beta iota in Hres |- *.
           ++ destruct Hres as (H1 & H2 & H3 & H4). repeat split; auto; lia.
           ++ destruct Hres as (H1 & H2 & H3 & H4 & H5). repeat split; auto; lia.
           ++ destruct Hres as (H1 & H2 & H3 & H4). repeat split; auto; lia.
           ++ destruct Hres as (H1 & H2 & H3 & H4 & H5).
              split; [exact H1|]. split; [lia|]. split; [exact H3|].
              split; [exact H4|]. exact H5.
           ++ destruct Hres as (H1 & H2 & H3 & H4 & H5).
              split; [exact H1|]. split; [lia|]. split; [exact H3|].
              split; [exact H4|]. exact H5.
      * exists [], [Call args]. split; [reflexivity|]. split; [reflexivity|].
        split; [intros i Hi; simpl in Hi; lia|].
        split; [reflexivity|]. split; [simpl; lia|].
        split; [exact (Hout0 _ _ eq_refl)|]. split; [right; exact Hrl|].
        symmetry. exact (Hst1 _ _ eq_refl).
      * exists [], [Call args]. split; [reflexivity|]. split; [reflexivity|].
        split; [intros i Hi; simpl in Hi; lia|].
        split; [reflexivity|]. split; [simpl; lia|].
        split; [exact (Hout0 _ _ eq_refl)|]. split; [left; exact Hx|].
        symmetry. exact (Hst1 _ _ eq_refl).
Qed.

Lemma wrapper_run (s : W) :
  let '(tr, s', res) :=
    wrapper str_of func max_retries initial_sleep_time backoff_factor args s in
  exists ds tail,
    tr = failed_attempts args ds ++ tail
    /\ ds = map (sleep_time_after backoff_factor initial_sleep_time) (seq 1 (length ds))
    /\ (forall i, (i < length ds)%nat -> exists e,
          outcome_at func args i s = inr e /\ is_Exception e = true
          /\ is_rate_limit (str_of e) = true)
    /\ match res with
       | inl r =>
           tail = [Call args] /\ (length ds < Z.to_nat max_retries)%nat
           /\ outcome_at func args (length ds) s = inl r
           /\ s' = state_after func args (S (length ds)) s
       | inr (Reraised e) =>
           tail = [Call args] /\ (length ds < Z.to_nat max_retries)%nat
           /\ outcome_at func args (length ds) s = inr e
           /\ (is_Exception e = false \/ is_rate_limit (str_of e) = false)
           /\ s' = state_after func args (S (length ds)) s
       | inr (MaxRetriesExceeded msg) =>
           tail = [] /\ length ds = Z.to_nat max_retries
           /\ msg = max_retries_msg max_retries
           /\ s' = state_after func args (length ds) s
       | inr (SleepValueError d) =>
           tail = [Call args] /\ (length ds < Z.to_nat max_retries)%nat
           /\ (exists e, outcome_at func args (length ds) s = inr e
                         /\ is_Exception e = true /\ is_rate_limit (str_of e) = true)
           /\ @time_sleep E (sleep_time_after backoff_factor initial_sleep_time (S (length ds)))
              = Some (SleepValueError d)
           /\ s' = state_after func args (S (length ds)) s
       | inr (SleepOverflowError d) =>
           tail = [Call args] /\ (length ds < Z.to_nat max_retries)%nat
           /\ (exists e, outcome_at func args (length ds) s = inr e
                         /\ is_Exception e = true /\ is_rate_limit (str_of e) = true)
           /\ @time_sleep E (sleep_time_after backoff_factor initial_sleep_time (S (length ds)))
              = Some (SleepOverflowError d)
           /\ s' = state_after func args (S (length ds)) s
       end.
Proof. exact (loop_run (Z.to_nat max_retries) initial_sleep_time s). Qed.

(** A larger budget of iterations does not change a run that left the loop
    before exhausting it. *)
Lemma loop_more_fuel (m m' : Z) (j : nat) : forall n st s,
  (forall msg, snd (wrapper_loop str_of func m backoff_factor n st args s)
               <> inr (MaxRetriesExceeded msg)) ->
  wrapper_loop str_of func m' backoff_factor (n + j) st args s
  = wrapper_loop str_of func m backoff_factor n st args s.
Proof.
  induction n as [|n IH]; intros st s Hn.
  - exfalso. exact (Hn _ eq_refl).
  - change (S n + j)%nat with (S (n + j)). revert Hn.
    rewrite !loop_step.
    destruct (func args s) as [s1 [r|e]]; [reflexivity|].
    destruct (is_Exception e); [|reflexivity].
    destruct (is_rate_limit (str_of e)); [|reflexivity].
    destruct (@time_sleep E (st * backoff_factor)%float); [reflexivity|].
    intros Hn. rewrite (IH (st * backoff_factor)%float s1); [reflexivity|].
    intros msg Hm. apply (Hn msg).
    destruct (wrapper_loop str_of func m backoff_factor n (st * backoff_factor)%float args s1)
      as [[tr s2] res].
    exact Hm.
Qed.

End Runs.

Section Extras.
Context {A R E W : Type} `{HE : PyException E}.
Variable str_of : E -> string.
Variable func : A -> W -> W * (R + E).
Variable max_retries : Z.
Variable initial_sleep_time backoff_factor : float.
Variable args : A.

(** Extra: whatever the operation does, one call of the wrapper calls it at
    most [max(max_retries, 0)] times. *)
Theorem wrapper_calls_bounded (s : W) :
  (calls (fst (fst (wrapper str_of func max_retries initial_sleep_time backoff_factor args s)))
   <= Z.to_nat max_retries)%nat.
Proof.
  pose proof (wrapper_run str_of func max_retries initial_sleep_time backoff_factor args s) as H.
  destruct (wrapper str_of func max_retries initial_sleep_time backoff_factor args s)
    as [[tr s'] res].
  cbv beta iota in H. simpl fst.
  destruct H as (ds & tail & -> & _ & _ & Hres).
  rewrite calls_failed_attempts.
  destruct res as [r|[e|msg|d|d]]; cbv beta iota in Hres; destruct Hres as [-> [Hn _]];
    unfold calls; simpl; lia.
Qed.

(** Extra: every trace of the wrapper is a sequence of failed calls, each
    followed by one sleep, the [i]-th sleep lasting [sleep_time_after i]
    (the float [initial_sleep_time] multiplied [i] times by
    [backoff_factor], each product rounded), possibly followed by one last
    call that is not followed by a sleep. *)
Theorem wrapper_trace_shape (s : W) :
  exists ds,
    (fst (fst (wrapper str_of func max_retries initial_sleep_time backoff_factor args s))
       = failed_attempts args ds
     \/ fst (fst (wrapper str_of func max_retries initial_sleep_time backoff_factor args s))
       = failed_attempts args ds ++ [Call args])
    /\ ds = map (sleep_time_after backoff_factor initial_sleep_time) (seq 1 (length ds)).
Proof.
  pose proof (wrapper_run str_of func max_retries initial_sleep_time backoff_factor args s) as H.
  destruct (wrapper str_of func max_retries initial_sleep_time backoff_factor args s)
    as [[tr s'] res].
  cbv beta iota in H. simpl fst.
  destruct H as (ds & tail & -> & Hds & _ & Hres).
  exists ds. split; [|exact Hds].
  destruct res as [r|[e|msg|d|d]]; cbv beta iota in Hres; destruct Hres as [-> _];
    [right; reflexivity | right; reflexivity | left; apply app_nil_r
    | right; reflexivity | right; reflexivity].
Qed.

(** Extra: when the wrapper returns [r], the operation was called [k + 1]
    times ([k + 1 <= max_retries]), its first [k] calls raised rate-limit
    exceptions and the last one returned that same [r]. *)
Theorem wrapper_result_origin (s s' : W) (tr : list (event A)) (r : R) :
  wrapper str_of func max_retries initial_sleep_time backoff_factor args s = (tr, s', inl r) ->
  exists k,
    calls tr = S k /\ (S k <= Z.to_nat max_retries)%nat
    /\ (forall i, (i < k)%nat -> exists e,
          outcome_at func args i s = inr e /\ is_rate_limit (str_of e) = true)
    /\ outcome_at func args k s = inl r.
Proof.
  intros Hw.
  pose proof (wrapper_run str_of func max_retries initial_sleep_time backoff_factor args s) as H.
  rewrite Hw in H. cbv beta iota in H.
  destruct H as (ds & tail & -> & _ & Hfail & -> & Hn & Hk & _).
  exists (length ds).
  split; [rewrite calls_failed_attempts; unfold calls; simpl; lia|].
  split; [lia|]. split; [|exact Hk].
  intros i Hi. destruct (Hfail i Hi) as (e & He & _ & Hrl). exists e. split; assumption.
Qed.

(** Extra: when the wrapper raises an exception [e] of the operation, the
    operation was called [k + 1] times ([k + 1 <= max_retries]), its first
    [k] calls raised rate-limit [Exception]s and the last one raised [e],
    which is not an [Exception] or not rate-limit-classified. *)
Theorem wrapper_reraised_origin (s s' : W) (tr : list (event A)) (e : E) :
  wrapper str_of func max_retries initial_sleep_time backoff_factor args s
  = (tr, s', inr (Reraised e)) ->
  exists k,
    calls tr = S k /\ (S k <= Z.to_nat max_retries)%nat
    /\ (forall i, (i < k)%nat -> exists e',
          outcome_at func args i s = inr e' /\ is_Exception e' = true
          /\ is_rate_limit (str_of e') = true)
    /\ outcome_at func args k s = inr e
    /\ (is_Exception e = false \/ is_rate_limit (str_of e) = false).
Proof.
  intros Hw.
  pose proof (wrapper_run str_of func max_retries initial_sleep_time backoff_factor args s) as H.
  rewrite Hw in H. cbv beta iota in H.
  destruct H as (ds & tail & -> & _ & Hfail & -> & Hn & Hk & Hrl & _).
  exists (length ds).
  split; [rewrite calls_failed_attempts; unfold calls; simpl; lia|].
  split; [lia|]. split; [assumption|]. split; assumption.
Qed.

(** Extra: the exhausted-retries exception is raised only after all
    [max(max_retries, 0)] permitted calls raised rate-limit exceptions, each
    of them followed by a sleep, and its message is always
    [Maximum retries <max_retries> exceeded]. *)
Theorem wrapper_exhausted_origin (s s' : W) (tr : list (event A)) (msg : string) :
  wrapper str_of func max_retries initial_sleep_time backoff_factor args s
  = (tr, s', inr (MaxRetriesExceeded msg)) ->
  msg = max_retries_msg max_retries
  /\ calls tr = Z.to_nat max_retries
  /\ length (delays tr) = Z.to_nat max_retries
  /\ (forall i, (i < Z.to_nat max_retries)%nat -> exists e,
        outcome_at func args i s = inr e /\ is_rate_limit (str_of e) = true).
Proof.
  intros Hw.
  pose proof (wrapper_run str_of func max_retries initial_sleep_time backoff_factor args s) as H.
  rewrite Hw in H. cbv beta iota in H.
  destruct H as (ds & tail & -> & _ & Hfail & -> & Hn & Hm & _).
  rewrite app_nil_r, calls_failed_attempts_nil, delays_failed_attempts_nil.
  rewrite <- Hn. split; [exact Hm|]. split; [reflexivity|]. split; [reflexivity|].
  intros i Hi. destruct (Hfail i Hi) as (e & He & _ & Hrl). exists e. split; assumption.
Qed.

(** Extra: the wrapper lets an exception of [time.sleep] through only
    right after the [(k + 1)]-th call, all [k + 1] calls having raised
    rate-limit [Exception]s, [k] sleeps of durations [sleep_time_after i]
    ([i = 1..k]) having returned, and [time.sleep(sleep_time_after (k + 1))]
    raising that very exception. *)
Theorem wrapper_sleep_error_origin (s s' : W) (tr : list (event A)) (err : exn E) :
  wrapper str_of func max_retries initial_sleep_time backoff_factor args s
  = (tr, s', inr err) ->
  (forall e, err <> Reraised e) ->
  (forall msg, err <> MaxRetriesExceeded msg) ->
  exists k,
    calls tr = S k
    /\ delays tr = map (sleep_time_after backoff_factor initial_sleep_time) (seq 1 k)
    /\ @time_sleep E (sleep_time_after backoff_factor initial_sleep_time (S k)) = Some err
    /\ (forall i, (i <= k)%nat -> exists e,
          outcome_at func args i s = inr e /\ is_Exception e = true
          /\ is_rate_limit (str_of e) = true).
Proof.
  intros Hw Hne Hnm.
  pose proof (wrapper_run str_of func max_retries initial_sleep_time backoff_factor args s) as H.
  rewrite Hw in H. cbv beta iota in H.
  destruct err as [e|msg|d|d];
    [exfalso; exact (Hne e eq_refl) | exfalso; exact (Hnm msg eq_refl) | |];
    destruct H as (ds & tail & -> & Hds & Hfail & Hres);
    destruct Hres as (-> & _ & Hlast & Hts & _);
    exists (length ds);
    (split; [rewrite calls_failed_attempts; unfold calls; simpl; lia|]);
    (split; [rewrite delays_failed_attempts; simpl; rewrite app_nil_r; exact Hds|]);
    (split; [exact Hts|]);
    intros i Hi; (destruct (Nat.eq_dec i (length ds)) as [->|Hne']; [exact Hlast|]);
    apply Hfail; lia.
Qed.

(** Extra: raising [max_retries] does not change a run that ended without
    the exhausted-retries exception: same trace, same final state, same
    result. *)
Theorem wrapper_more_retries_same_run (m m' : Z) (s : W) :
  (m <= m')%Z ->
  (forall msg, snd (wrapper str_of func m initial_sleep_time backoff_factor args s)
               <> inr (MaxRetriesExceeded msg)) ->
  wrapper str_of func m' initial_sleep_time backoff_factor args s
  = wrapper str_of func m initial_sleep_time backoff_factor args s.
Proof.
  intros Hm Hres. unfold wrapper in *.
  replace (Z.to_nat m') with (Z.to_nat m + (Z.to_nat m' - Z.to_nat m))%nat by lia.
  apply loop_more_fuel. exact Hres.
Qed.

End Extras.

(** Extra: an exception message that contains a rate-limit-classified
    message, with any text before and after it, is rate-limit-classified
    too. *)
Theorem is_rate_limit_app (p m q : string) :
  is_rate_limit m = true -> is_rate_limit (p ++ m ++ q) = true.
Proof.
  unfold is_rate_limit. rewrite !lower_app, !replace_char_app. intros H.
  destruct (contains_split _ _ H) as (a & b & ->).
  set (P := PyStr.replace_char "_" " " (PyStr.lower p)).
  set (Q' := PyStr.replace_char "_" " " (PyStr.lower q)).
  rewrite !str_app_assoc.
  replace (P ++ a ++ "rate limit" ++ b ++ Q')%string
    with ((P ++ a) ++ "rate limit" ++ (b ++ Q'))%string by (rewrite !str_app_assoc; reflexivity).
  apply contains_app.
Qed.

Lemma lower_char_idem (c : ascii) : PyStr.lower_char (PyStr.lower_char c) = PyStr.lower_char c.
Proof.
  destruct c as [b0 b1 b2 b3 b4 b5 b6 b7].
  destruct b0, b1, b2, b3, b4, b5, b6, b7; reflexivity.
Qed.

Lemma lower_idem (s : string) : PyStr.lower (PyStr.lower s) = PyStr.lower s.
Proof. induction s as [|c s IH]; simpl; [reflexivity|]. rewrite lower_char_idem, IH. reflexivity. Qed.

(** Extra: the classification ignores letter case: a message and its
    lowercased form are classified alike. *)
Theorem is_rate_limit_lower (msg : string) :
  is_rate_limit (PyStr.lower msg) = is_rate_limit msg.
Proof. unfold is_rate_limit. rewrite lower_idem. reflexivity. Qed.


(** ** Concrete runs *)

(** Closes goals [forall i, lo <= i < hi -> P i] by trying each [i]. *)
Ltac solve_case :=
  first [ lia | reflexivity | eexists; split; [reflexivity | split; reflexivity] ].

Ltac destr_upto n i :=
  lazymatch n with
  | O => lia
  | S ?m => destruct i as [|i]; [solve_case | destr_upto m i]
  end.

Ltac by_cases_upto n :=
  let i := fresh "i" in
  let Hi := fresh "Hi" in
  intros i Hi; destr_upto n i.







(** Counterexample to C3: with [max_retries = 0] an operation that always
    raises a non-rate-limit exception is never called, and the wrapper
    raises the exhausted-retries exception instead of the operation's. *)
Lemma zero_max_retries_hides_failure :
  is_rate_limit (msg_of "boom") = false
  /\ wrapper msg_of (always_raise "boom") 0 1.0 1.5 tt 0%nat
     = ([], 0%nat, inr (MaxRetriesExceeded "Maximum retries 0 exceeded")).
Proof. split; reflexivity. Qed.

Lemma wrapper_reraises_other_exceptions_witness :
  (Z.of_nat 1 < 20)%Z
  /\ (forall i, (i < 1)%nat -> exists e',
        outcome_at (scripted [inr "Rate limit exceeded"; inr "ratelimit"]) tt i 0%nat = inr e'
        /\ is_Exception e' = true /\ is_rate_limit (msg_of e') = true)
  /\ (forall i, (1 <= i <= 1)%nat -> @time_sleep string (sleep_time_after 1.5 1.0 i) = None)
  /\ outcome_at (scripted [inr "Rate limit exceeded"; inr "ratelimit"]) tt 1 0%nat
     = inr "ratelimit"
  /\ (is_Exception "ratelimit" = false \/ is_rate_limit (msg_of "ratelimit") = false)
  /\ exists ds,
       wrapper msg_of (scripted [inr "Rate limit exceeded"; inr "ratelimit"]) 20 1.0 1.5 tt 0%nat
       = (failed_attempts tt ds ++ [Call tt],
          state_after (scripted [inr "Rate limit exceeded"; inr "ratelimit"]) tt 2 0%nat,
          inr (Reraised "ratelimit"))
       /\ length ds = 1%nat
       /\ calls (failed_attempts tt ds ++ [Call tt]) = 2%nat.
Proof.
  assert (H1 : (Z.of_nat 1 < 20)%Z) by reflexivity.
  assert (H2 : forall i, (i < 1)%nat -> exists e',
        outcome_at (scripted [inr "Rate limit exceeded"; inr "ratelimit"]) tt i 0%nat = inr e'
        /\ is_Exception e' = true /\ is_rate_limit (msg_of e') = true) by by_cases_upto 1%nat.
  assert (H3 : forall i, (1 <= i <= 1)%nat ->
                 @time_sleep string (sleep_time_after 1.5 1.0 i) = None)
    by by_cases_upto 2%nat.
  assert (H4 : outcome_at (scripted [inr "Rate limit exceeded"; inr "ratelimit"]) tt 1 0%nat
               = inr "ratelimit") by reflexivity.
  assert (H5 : is_Exception "ratelimit" = false \/ is_rate_limit (msg_of "ratelimit") = false)
    by (right; reflexivity).
  repeat (split; [assumption|]).
  exact (wrapper_reraises_other_exceptions msg_of
           (scripted [inr "Rate limit exceeded"; inr "ratelimit"]) 20 1.0 1.5 tt 0%nat 1
           "ratelimit" H1 H2 H3 H4 H5).
Defined.

(** Counterexample to C4: a [KeyboardInterrupt("rate limit")] of the
    operation, whose message is rate-limit-classified, is not caught by
    line 58 and leaves the wrapper after one call, while an [Exception]
    with the same message is retried until the retries are exhausted. *)
Lemma keyboard_interrupt_not_retried :
  is_rate_limit (py_str (KeyboardInterrupt "rate limit")) = true
  /\ wrapper py_str (always_raise (KeyboardInterrupt "rate limit")) 3 1.0 1.5 tt 0%nat
     = ([Call tt], 1%nat, inr (Reraised (KeyboardInterrupt "rate limit")))
  /\ wrapper py_str (always_raise (PyExc "rate limit")) 3 1.0 1.5 tt 0%nat
     = ([Call tt; Sleep 1.5; Call tt; Sleep 2.25; Call tt; Sleep 3.375], 3%nat,
        inr (MaxRetriesExceeded "Maximum retries 3 exceeded")).
Proof. repeat split; reflexivity. Qed.

(** Counterexample to C5: with [max_retries = 0] an operation that returns
    42 on every call is never called and the wrapper raises. *)
Lemma zero_max_retries_no_result :
  outcome_at (fail_then_return "unused" 0 42) tt 0%nat 0%nat = inl 42%nat
  /\ wrapper msg_of (fail_then_return "unused" 0 42) 0 1.0 1.5 tt 0%nat
     = ([], 0%nat, inr (MaxRetriesExceeded "Maximum retries 0 exceeded")).
Proof. split; reflexivity. Qed.

Lemma wrapper_returns_first_success_witness :
  (1 <= 20)%Z
  /\ fail_then_return "unused" 0 42 tt 0%nat = (1%nat, inl 42%nat)
  /\ wrapper msg_of (fail_then_return "unused" 0 42) 20 1.0 1.5 tt 0%nat
     = ([Call tt], 1%nat, inl 42%nat)
  /\ delays [@Call unit tt] = [].
Proof.
  assert (H1 : (1 <= 20)%Z) by lia.
  assert (H2 : fail_then_return "unused" 0 42 tt 0%nat = (1%nat, inl 42%nat)) by reflexivity.
  split; [exact H1|]. split; [exact H2|].
  exact (wrapper_returns_first_success msg_of (fail_then_return "unused" 0 42) 20 1.0 1.5
           tt 0%nat 1%nat 42%nat H1 H2).
Defined.

Lemma wrapper_nonpositive_max_retries_witness :
  (-2 <= 0)%Z
  /\ wrapper msg_of (always_raise "boom") (-2) 1.0 1.5 tt 0%nat
     = ([], 0%nat, inr (MaxRetriesExceeded (max_retries_msg (-2))))
  /\ PyStr.contains (PyStr.str_of_int (-2)) (max_retries_msg (-2)) = true.
Proof.
  assert (H : (-2 <= 0)%Z) by lia.
  split; [exact H|].
  exact (wrapper_nonpositive_max_retries msg_of (always_raise "boom") (-2) 1.0 1.5 tt 0%nat H).
Defined.

Lemma wrapper_result_origin_witness :
  wrapper msg_of (fail_then_return "RATE_LIMIT" 2 42) 20 1.0 1.5 tt 0%nat
  = ([Call tt; Sleep 1.5; Call tt; Sleep 2.25; Call tt], 3%nat, inl 42%nat)
  /\ exists k,
       calls [Call tt; Sleep 1.5; Call tt; Sleep 2.25; Call tt] = S k
       /\ (S k <= Z.to_nat 20)%nat
       /\ (forall i, (i < k)%nat -> exists e,
             outcome_at (fail_then_return "RATE_LIMIT" 2 42) tt i 0%nat = inr e
             /\ is_rate_limit (msg_of e) = true)
       /\ outcome_at (fail_then_return "RATE_LIMIT" 2 42) tt k 0%nat = inl 42%nat.
Proof.
  assert (H : wrapper msg_of (fail_then_return "RATE_LIMIT" 2 42) 20 1.0 1.5 tt 0%nat
              = ([Call tt; Sleep 1.5; Call tt; Sleep 2.25; Call tt], 3%nat, inl 42%nat))
    by reflexivity.
  split; [exact H|].
  exact (wrapper_result_origin msg_of (fail_then_return "RATE_LIMIT" 2 42) 20 1.0 1.5 tt
           0%nat 3%nat _ 42%nat H).
Defined.

Lemma wrapper_reraised_origin_witness :
  wrapper py_str (scripted [inr (PyExc "Rate limit exceeded");
                            inr (KeyboardInterrupt "rate limit")]) 20 1.0 1.5 tt 0%nat
  = ([Call tt; Sleep 1.5; Call tt], 2%nat, inr (Reraised (KeyboardInterrupt "rate limit")))
  /\ exists k,
       calls [Call tt; Sleep 1.5; Call tt] = S k
       /\ (S k <= Z.to_nat 20)%nat
       /\ (forall i, (i < k)%nat -> exists e',
             outcome_at (scripted [inr (PyExc "Rate limit exceeded");
                                   inr (KeyboardInterrupt "rate limit")]) tt i 0%nat
             = inr e' /\ is_Exception e' = true /\ is_rate_limit (py_str e') = true)
       /\ outcome_at (scripted [inr (PyExc "Rate limit exceeded");
                                inr (KeyboardInterrupt "rate limit")]) tt k 0%nat
          = inr (KeyboardInterrupt "rate limit")
       /\ (is_Exception (KeyboardInterrupt "rate limit") = false
           \/ is_rate_limit (py_str (KeyboardInterrupt "rate limit")) = false).
Proof.
  assert (H : wrapper py_str (scripted [inr (PyExc "Rate limit exceeded");
                                        inr (KeyboardInterrupt "rate limit")]) 20 1.0 1.5 tt 0%nat
              = ([Call tt; Sleep 1.5; Call tt], 2%nat,
                 inr (Reraised (KeyboardInterrupt "rate limit"))))
    by reflexivity.
  split; [exact H|].
  exact (wrapper_reraised_origin py_str (scripted [inr (PyExc "Rate limit exceeded");
                                                   inr (KeyboardInterrupt "rate limit")])
           20 1.0 1.5 tt 0%nat 2%nat _ (KeyboardInterrupt "rate limit") H).
Defined.

Lemma wrapper_exhausted_origin_witness :
  wrapper msg_of (always_raise "RATE_LIMIT") 3 1.0 1.5 tt 0%nat
  = ([Call tt; Sleep 1.5; Call tt; Sleep 2.25; Call tt; Sleep 3.375], 3%nat,
     inr (MaxRetriesExceeded "Maximum retries 3 exceeded"))
  /\ "Maximum retries 3 exceeded" = max_retries_msg 3
  /\ calls [@Call unit tt; Sleep 1.5; Call tt; Sleep 2.25; Call tt; Sleep 3.375]
     = Z.to_nat 3
  /\ length (delays [@Call unit tt; Sleep 1.5; Call tt; Sleep 2.25; Call tt; Sleep 3.375])
     = Z.to_nat 3
  /\ (forall i, (i < Z.to_nat 3)%nat -> exists e,
        outcome_at (always_raise "RATE_LIMIT") tt i 0%nat = inr e
        /\ is_rate_limit (msg_of e) = true).
Proof.
  assert (H : wrapper msg_of (always_raise "RATE_LIMIT") 3 1.0 1.5 tt 0%nat
              = ([Call tt; Sleep 1.5; Call tt; Sleep 2.25; Call tt; Sleep 3.375], 3%nat,
                 inr (MaxRetriesExceeded "Maximum retries 3 exceeded"))) by reflexivity.
  split; [exact H|].
  exact (wrapper_exhausted_origin msg_of (always_raise "RATE_LIMIT") 3 1.0 1.5 tt
           0%nat 3%nat _ _ H).
Defined.

Lemma wrapper_sleep_error_origin_witness :
  wrapper msg_of (always_raise "rate limit") 2 1e10 1.0 tt 0%nat
  = ([Call tt], 1%nat, inr (SleepOverflowError 1e10))
  /\ (forall e, @SleepOverflowError string 1e10 <> Reraised e)
  /\ (forall msg, @SleepOverflowError string 1e10 <> MaxRetriesExceeded msg)
  /\ exists k,
       calls [@Call unit tt] = S k
       /\ delays [@Call unit tt] = map (sleep_time_after 1.0 1e10) (seq 1 k)
       /\ @time_sleep string (sleep_time_after 1.0 1e10 (S k)) = Some (SleepOverflowError 1e10)
       /\ (forall i, (i <= k)%nat -> exists e,
             outcome_at (always_raise "rate limit") tt i 0%nat = inr e
             /\ is_Exception e = true /\ is_rate_limit (msg_of e) = true).
Proof.
  assert (H1 : wrapper msg_of (always_raise "rate limit") 2 1e10 1.0 tt 0%nat
               = ([Call tt], 1%nat, inr (SleepOverflowError 1e10))) by reflexivity.
  assert (H2 : forall e, @SleepOverflowError string 1e10 <> Reraised e)
    by (intros e He; discriminate He).
  assert (H3 : forall msg, @SleepOverflowError string 1e10 <> MaxRetriesExceeded msg)
    by (intros msg Hm; discriminate Hm).
  split; [exact H1|]. split; [exact H2|]. split; [exact H3|].
  exact (wrapper_sleep_error_origin msg_of (always_raise "rate limit") 2 1e10 1.0 tt
           0%nat 1%nat _ _ H1 H2 H3).
Defined.

Lemma wrapper_more_retries_same_run_witness :
  (2 <= 20)%Z
  /\ (forall msg, snd (wrapper msg_of (fail_then_return "RATE_LIMIT" 1 42) 2 1.0 1.5 tt 0%nat)
                  <> inr (MaxRetriesExceeded msg))
  /\ wrapper msg_of (fail_then_return "RATE_LIMIT" 1 42) 20 1.0 1.5 tt 0%nat
     = wrapper msg_of (fail_then_return "RATE_LIMIT" 1 42) 2 1.0 1.5 tt 0%nat
  /\ wrapper msg_of (fail_then_return "RATE_LIMIT" 1 42) 2 1.0 1.5 tt 0%nat
     = ([Call tt; Sleep 1.5; Call tt], 2%nat, inl 42%nat).
Proof.
  assert (H1 : (2 <= 20)%Z) by lia.
  assert (H2 : forall msg,
            snd (wrapper msg_of (fail_then_return "RATE_LIMIT" 1 42) 2 1.0 1.5 tt 0%nat)
            <> inr (MaxRetriesExceeded msg))
    by (intros msg Hm; vm_compute in Hm; discriminate Hm).
  split; [exact H1|]. split; [exact H2|]. split; [|reflexivity].
  exact (wrapper_more_retries_same_run msg_of (fail_then_return "RATE_LIMIT" 1 42) 1.0 1.5
           tt 2 20 0%nat H1 H2).
Defined.

Lemma is_rate_limit_app_witness :
  is_rate_limit "RATE_LIMIT" = true
  /\ is_rate_limit ("Error code: 429 - " ++ "RATE_LIMIT" ++ ": slow down") = true.
Proof.
  assert (H : is_rate_limit "RATE_LIMIT" = true) by reflexivity.
  split; [exact H|].
  exact (is_rate_limit_app "Error code: 429 - " "RATE_LIMIT" ": slow down" H).
Defined.

End RetryProofs.


(** * Proofs about the timestamp *)

Module TimestampProofs.
Import Timestamp.
Local Open Scope Z_scope.

(** ** Splitting a count into consecutive blocks *)

Section Split.
Variable len : Z -> Z.

Lemma split_units_bounds (n : nat) : forall i z,
  0 <= z < span len i n ->
  let '(j, r) := split_units len i z n in i <= j < i + Z.of_nat n /\ 0 <= r < len j.
Proof.
  induction n as [|n IH]; intros i z Hz; simpl in Hz |- *; [lia|].
  destruct (z <? len i) eqn:Hlt.
  - apply Z.ltb_lt in Hlt. lia.
  - apply Z.ltb_ge in Hlt.
    specialize (IH (i + 1) (z - len i) ltac:(lia)).
    destruct (split_units len (i + 1) (z - len i) n) as [j r]. lia.
Qed.

Lemma split_units_fuel (n : nat) : forall m i z,
  0 <= z < span len i n -> (n <= m)%nat ->
  split_units len i z m = split_units len i z n.
Proof.
  induction n as [|n IH]; intros m i z Hz Hm; simpl in Hz; [lia|].
  destruct m as [|m]; [lia|]. simpl.
  destruct (z <? len i) eqn:Hlt; [reflexivity|].
  apply Z.ltb_ge in Hlt. apply IH; lia.
Qed.

(** Strictly more units fall strictly later, in the order of (block,
    offset) pairs. *)
Lemma split_units_strict_mono (n : nat) : forall i z1 z2,
  0 <= z1 < z2 -> z2 < span len i n ->
  let '(j1, r1) := split_units len i z1 n in
  let '(j2, r2) := split_units len i z2 n in
  j1 < j2 \/ (j1 = j2 /\ r1 < r2).
Proof.
  induction n as [|n IH]; intros i z1 z2 Hz Hz2; simpl in Hz2 |- *; [lia|].
  destruct (z1 <? len i) eqn:H1, (z2 <? len i) eqn:H2.
  - lia.
  - apply Z.ltb_ge in H2. apply Z.ltb_lt in H1.
    pose proof (split_units_bounds n (i + 1) (z2 - len i) ltac:(lia)) as Hb.
    destruct (split_units len (i + 1) (z2 - len i) n) as [j2 r2]. lia.
  - apply Z.ltb_lt in H2. apply Z.ltb_ge in H1. lia.
  - apply Z.ltb_ge in H1. apply Z.ltb_ge in H2.
    apply IH; lia.
Qed.

Lemma span_lower (c : Z) (n : nat) : forall i,
  (forall j, c <= len j) -> c * Z.of_nat n <= span len i n.
Proof.
  induction n as [|n IH]; intros i Hc; simpl; [lia|].
  specialize (IH (i + 1) Hc). specialize (Hc i). lia.
Qed.

End Split.

(** ** The calendar *)

Lemma days_in_year_bounds (y : Z) : 365 <= days_in_year y <= 366.
Proof. unfold days_in_year. destruct (is_leap y); lia. Qed.

Lemma days_in_month_bounds (y m : Z) : 28 <= days_in_month y m <= 31.
Proof.
  unfold days_in_month.
  destruct (m =? 2); [destruct (is_leap y); lia|].
  destruct ((m =? 4) || (m =? 6) || (m =? 9) || (m =? 11))%bool; lia.
Qed.

Lemma span_months (y : Z) : span (days_in_month y) 1 12 = days_in_year y.
Proof.
  unfold days_in_year, span, days_in_month. simpl.
  destruct (is_leap y); reflexivity.
Qed.

(** The fuel of [ymd_of_days] is enough for the year loop. *)
Lemma year_fuel_enough (days : Z) :
  0 <= days -> days < span days_in_year 1970 (S (Z.to_nat (days / 365))).
Proof.
  intros Hd.
  pose proof (span_lower days_in_year 365 (S (Z.to_nat (days / 365))) 1970
                (fun j => proj1 (days_in_year_bounds j))) as Hs.
  rewrite Nat2Z.inj_succ, Z2Nat.id in Hs by (apply Z.div_pos; lia).
  pose proof (Z.mul_div_le days 365 ltac:(lia)).
  pose proof (Z.mod_pos_bound days 365 ltac:(lia)).
  pose proof (Z.div_mod days 365 ltac:(lia)). lia.
Qed.

Lemma ymd_of_days_ranges (days : Z) :
  0 <= days ->
  let '(y, m, d) := ymd_of_days days in 1970 <= y /\ 1 <= m <= 12 /\ 1 <= d <= 31.
Proof.
  intros Hd. unfold ymd_of_days.
  pose proof (split_units_bounds days_in_year (S (Z.to_nat (days / 365))) 1970 days
                (conj Hd (year_fuel_enough days Hd))) as Hy.
  destruct (split_units days_in_year 1970 days (S (Z.to_nat (days / 365)))) as [y doy].
  destruct Hy as [Hy Hdoy].
  pose proof (split_units_bounds (days_in_month y) 12 1 doy) as Hm.
  rewrite span_months in Hm. specialize (Hm Hdoy).
  destruct (split_units (days_in_month y) 1 doy 12) as [m dom].
  pose proof (days_in_month_bounds y m). simpl in Hm. lia.
Qed.

(** ** Rendering *)

Lemma strftime_TIMESTAMP_FORMAT (dt : datetime) :
  strftime TIMESTAMP_FORMAT dt =
  (fmt_num 4 (year dt) ++ String "-" (fmt_num 2 (month dt) ++ String "-"
   (fmt_num 2 (day dt) ++ String "_" (fmt_num 2 (hour dt) ++
   (fmt_num 2 (minute dt) ++ (fmt_num 2 (second dt) ++ EmptyString))))))%string.
Proof. reflexivity. Qed.

Lemma fmt_num_digits (w : nat) (n : Z) :
  0 <= n < 10 ^ Z.of_nat w -> fmt_num w n = digits w n.
Proof.
  intros Hn. unfold fmt_num.
  replace ((0 <=? n) && (n <? 10 ^ Z.of_nat w))%bool with true; [reflexivity|].
  symmetry. apply andb_true_intro. split; [apply Z.leb_le | apply Z.ltb_lt]; lia.
Qed.

Lemma digit_cases (x : Z) :
  0 <= x < 10 ->
  x = 0 \/ x = 1 \/ x = 2 \/ x = 3 \/ x = 4 \/ x = 5 \/ x = 6 \/ x = 7 \/ x = 8 \/ x = 9.
Proof. lia. Qed.

Lemma is_digit_digit_char (x : Z) : 0 <= x < 10 -> is_digit (digit_char x) = true.
Proof.
  intros Hx. destruct (digit_cases x Hx) as [->|[->|[->|[->|[->|[->|[->|[->|[->| ->]]]]]]]]];
    reflexivity.
Qed.

Lemma digits_step (w : nat) (n : Z) :
  0 <= n < 10 ^ Z.of_nat (S w) ->
  0 <= n / 10 ^ Z.of_nat w < 10 /\ 0 <= n mod 10 ^ Z.of_nat w < 10 ^ Z.of_nat w.
Proof.
  intros Hn. rewrite Nat2Z.inj_succ, Z.pow_succ_r in Hn by lia.
  assert (Hp : 0 < 10 ^ Z.of_nat w) by (apply Z.pow_pos_nonneg; lia).
  split.
  - split; [apply Z.div_pos; lia|]. apply Z.div_lt_upper_bound; lia.
  - apply Z.mod_pos_bound. exact Hp.
Qed.

Lemma length_digits (w : nat) : forall n, String.length (digits w n) = w.
Proof. induction w as [|w IH]; intros n; simpl; [reflexivity|]. rewrite IH. reflexivity. Qed.

(** A run of [w] placeholders accepts exactly the [w] digits of a number. *)
Lemma matches_digits (w : nat) : forall (pp p s : string) (n : Z),
  String.length pp = w ->
  forallb is_placeholder (list_ascii_of_string pp) = true ->
  0 <= n < 10 ^ Z.of_nat w ->
  matches (pp ++ p) (digits w n ++ s) = matches p s.
Proof.
  induction w as [|w IH]; intros pp p s n Hlen Hph Hn.
  - destruct pp; [reflexivity|discriminate].
  - destruct pp as [|c pp]; [discriminate|].
    simpl in Hlen, Hph |- *. apply andb_prop in Hph. destruct Hph as [Hc Hph].
    rewrite Hc. destruct (digits_step w n Hn) as [Hd Hm].
    rewrite is_digit_digit_char by exact Hd. simpl.
    apply IH; [lia | exact Hph | exact Hm].
Qed.

Lemma matches_sep (c : ascii) (p s : string) :
  is_placeholder c = false -> matches (String c p) (String c s) = matches p s.
Proof. intros Hc. simpl. rewrite Hc, Ascii.eqb_refl. reflexivity. Qed.

Lemma now_utc_fields (t : N) (dt : datetime) :
  now_utc t = Some dt ->
  1970 <= year dt <= 9999 /\ 1 <= month dt <= 12 /\ 1 <= day dt <= 31
  /\ 0 <= hour dt < 24 /\ 0 <= minute dt < 60 /\ 0 <= second dt < 60.
Proof.
  unfold now_utc. intros H.
  assert (Hd : 0 <= Z.of_N t / 86400) by (apply Z.div_pos; lia).
  pose proof (ymd_of_days_ranges (Z.of_N t / 86400) Hd) as Hr.
  destruct (ymd_of_days (Z.of_N t / 86400)) as [[y m] d].
  destruct (MAXYEAR <? y) eqn:Hmax; [discriminate|].
  injection H as <-. apply Z.ltb_ge in Hmax. unfold MAXYEAR in Hmax. simpl.
  pose proof (Z.mod_pos_bound (Z.of_N t) 86400 ltac:(lia)).
  pose proof (Z.mod_pos_bound (Z.of_N t mod 86400) 3600 ltac:(lia)).
  pose proof (Z.mod_pos_bound (Z.of_N t mod 86400) 60 ltac:(lia)).
  repeat split;
    first [ lia | apply Z.div_pos; lia | apply Z.div_lt_upper_bound; lia ].
Qed.

(** The rendering of a datetime whose fields are in range. *)
Lemma strftime_in_range (dt : datetime) :
  1970 <= year dt <= 9999 -> 1 <= month dt <= 12 -> 1 <= day dt <= 31 ->
  0 <= hour dt < 24 -> 0 <= minute dt < 60 -> 0 <= second dt < 60 ->
  strftime TIMESTAMP_FORMAT dt =
  (digits 4 (year dt) ++ String "-" (digits 2 (month dt) ++ String "-"
   (digits 2 (day dt) ++ String "_" (digits 2 (hour dt) ++
   (digits 2 (minute dt) ++ (digits 2 (second dt) ++ EmptyString))))))%string.
Proof.
  intros Hy Hm Hd Hh Hmi Hs. rewrite strftime_TIMESTAMP_FORMAT.
  rewrite !fmt_num_digits by (simpl; lia). reflexivity.
Qed.

(** ** C6 (confirmed) *)

(** C6: every string [timestamp_str] returns matches [YYYY-MM-DD_HHMMSS]:
    four digits of year, two of month, two of day separated by hyphens, a
    literal underscore, then two digits each of hour, minute and second of
    the UTC time. *)
Theorem timestamp_str_matches_pattern (t : N) (s : string) :
  timestamp_str t = Some s -> matches PATTERN s = true.
Proof.
  unfold timestamp_str. destruct (now_utc t) as [dt|] eqn:Hnow; [|discriminate].
  intros H. assert (s = strftime TIMESTAMP_FORMAT dt) as -> by (cbv [option_map] in H; congruence).
  destruct (now_utc_fields t dt Hnow) as (Hy & Hm & Hd & Hh & Hmi & Hs).
  rewrite strftime_in_range by assumption.
  change PATTERN with ("YYYY" ++ String "-" ("MM" ++ String "-" ("DD" ++ String "_"
    ("HH" ++ ("MM" ++ ("SS" ++ EmptyString))))))%string.
  rewrite matches_digits, matches_sep, matches_digits, matches_sep, matches_digits,
    matches_sep, !matches_digits;
    first [ reflexivity | simpl; lia ].
Qed.

(** ** Lexicographic order of the rendered strings *)

Lemma compare_cons (c1 c2 : ascii) (r1 r2 : string) :
  String.compare (String c1 r1) (String c2 r2) =
  match Ascii.compare c1 c2 with Eq => String.compare r1 r2 | ne => ne end.
Proof. reflexivity. Qed.

Lemma compare_cons_same (c : ascii) (r1 r2 : string) :
  String.compare (String c r1) (String c r2) = String.compare r1 r2.
Proof. rewrite compare_cons. unfold Ascii.compare. rewrite N.compare_refl. reflexivity. Qed.

Lemma digits_S (w : nat) (n : Z) :
  digits (S w) n = String (digit_char (n / 10 ^ Z.of_nat w)) (digits w (n mod 10 ^ Z.of_nat w)).
Proof. reflexivity. Qed.

Lemma digit_char_compare (x y : Z) :
  0 <= x < 10 -> 0 <= y < 10 -> Ascii.compare (digit_char x) (digit_char y) = Z.compare x y.
Proof.
  intros Hx Hy.
  destruct (digit_cases x Hx) as [->|[->|[->|[->|[->|[->|[->|[->|[->| ->]]]]]]]]];
  destruct (digit_cases y Hy) as [->|[->|[->|[->|[->|[->|[->|[->|[->| ->]]]]]]]]];
  reflexivity.
Qed.

(** Comparing two [w]-digit renderings, each followed by more text, is
    comparing the numbers first. *)
Lemma compare_digits_app (w : nat) : forall (a b : Z) (r1 r2 : string),
  0 <= a < 10 ^ Z.of_nat w -> 0 <= b < 10 ^ Z.of_nat w ->
  String.compare (digits w a ++ r1) (digits w b ++ r2) =
  match Z.compare a b with Eq => String.compare r1 r2 | c => c end.
Proof.
  induction w as [|w IH]; intros a b r1 r2 Ha Hb.
  - simpl in Ha, Hb. replace a with 0 by lia. replace b with 0 by lia. reflexivity.
  - rewrite !digits_S. change (String ?c ?x ++ ?y)%string with (String c (x ++ y)).
    rewrite compare_cons.
    destruct (digits_step w a Ha) as [Ha1 Ha2].
    destruct (digits_step w b Hb) as [Hb1 Hb2].
    rewrite digit_char_compare by assumption.
    rewrite IH by assumption.
    set (p := 10 ^ Z.of_nat w) in *.
    assert (Hp : 0 < p) by (apply Z.pow_pos_nonneg; lia).
    pose proof (Z.div_mod a p ltac:(lia)). pose proof (Z.div_mod b p ltac:(lia)).
    destruct (Z.compare_spec (a / p) (b / p)) as [Hq|Hq|Hq].
    + rewrite Hq in *.
      destruct (Z.compare_spec (a mod p) (b mod p)) as [Hr|Hr|Hr];
        [ replace (a ?= b) with Eq by (symmetry; apply Z.compare_eq_iff; lia)
        | replace (a ?= b) with Lt by (symmetry; apply Z.compare_lt_iff; lia)
        | replace (a ?= b) with Gt by (symmetry; apply Z.compare_gt_iff; lia) ];
        reflexivity.
    + assert (a < b) by nia.
      replace (a ?= b) with Lt by (symmetry; apply Z.compare_lt_iff; lia). reflexivity.
    + assert (b < a) by nia.
      replace (a ?= b) with Gt by (symmetry; apply Z.compare_gt_iff; lia). reflexivity.
Qed.

(** ** The calendar date is strictly increasing in the day count *)

Lemma ymd_of_days_strict_mono (days1 days2 : Z) :
  0 <= days1 < days2 ->
  let '(y1, m1, d1) := ymd_of_days days1 in
  let '(y2, m2, d2) := ymd_of_days days2 in
  y1 < y2 \/ (y1 = y2 /\ (m1 < m2 \/ (m1 = m2 /\ d1 < d2))).
Proof.
  intros Hd. unfold ymd_of_days.
  set (n1 := S (Z.to_nat (days1 / 365))).
  set (n2 := S (Z.to_nat (days2 / 365))).
  assert (Hf1 : days1 < span days_in_year 1970 n1) by (apply year_fuel_enough; lia).
  assert (Hf2 : days2 < span days_in_year 1970 n2) by (apply year_fuel_enough; lia).
  assert (Hn : (n1 <= n2)%nat).
  { unfold n1, n2. apply le_n_S, Z2Nat.inj_le;
      [apply Z.div_pos; lia | apply Z.div_pos; lia | apply Z.div_le_mono; lia]. }
  rewrite <- (split_units_fuel days_in_year n1 n2 1970 days1 ltac:(lia) Hn).
  pose proof (split_units_strict_mono days_in_year n2 1970 days1 days2 Hd Hf2) as Hy.
  pose proof (split_units_bounds days_in_year n2 1970 days1 ltac:(lia)) as Hb1.
  pose proof (split_units_bounds days_in_year n2 1970 days2 ltac:(lia)) as Hb2.
  destruct (split_units days_in_year 1970 days1 n2) as [y1 doy1].
  destruct (split_units days_in_year 1970 days2 n2) as [y2 doy2].
  destruct (split_units (days_in_month y1) 1 doy1 12) as [m1 dom1] eqn:Hm1.
  destruct (split_units (days_in_month y2) 1 doy2 12) as [m2 dom2] eqn:Hm2.
  destruct Hy as [Hy|[-> Hdoy]]; [left; exact Hy|right; split; [reflexivity|]].
  pose proof (split_units_strict_mono (days_in_month y2) 12 1 doy1 doy2) as Hm.
  rewrite span_months in Hm. specialize (Hm ltac:(lia) ltac:(lia)).
  rewrite Hm1, Hm2 in Hm. lia.
Qed.

(** Seconds of the day split into hours, minutes and seconds. *)
Lemma hms_decompose (sod : Z) :
  0 <= sod ->
  sod = 3600 * (sod / 3600) + 60 * (sod mod 3600 / 60) + sod mod 60
  /\ 0 <= sod mod 3600 / 60 < 60 /\ 0 <= sod mod 60 < 60.
Proof.
  intros Hs.
  pose proof (Z.div_mod sod 3600 ltac:(lia)).
  pose proof (Z.mod_pos_bound sod 3600 ltac:(lia)).
  pose proof (Z.div_mod (sod mod 3600) 60 ltac:(lia)).
  pose proof (Z.mod_pos_bound (sod mod 3600) 60 ltac:(lia)).
  assert (Hmm : sod mod 3600 mod 60 = sod mod 60).
  { apply Z.mod_mod_divide. exists 60. reflexivity. }
  rewrite Hmm in *.
  split; [lia|]. split; [|lia].
  split; [apply Z.div_pos; lia | apply Z.div_lt_upper_bound; lia].
Qed.

Lemma now_utc_some (t : N) (dt : datetime) :
  now_utc t = Some dt ->
  exists y m d,
    ymd_of_days (Z.of_N t / 86400) = (y, m, d)
    /\ dt = mk_datetime y m d (Z.of_N t mod 86400 / 3600)
                          (Z.of_N t mod 86400 mod 3600 / 60) (Z.of_N t mod 86400 mod 60).
Proof.
  unfold now_utc. destruct (ymd_of_days (Z.of_N t / 86400)) as [[y m] d].
  destruct (MAXYEAR <? y); [discriminate|]. intros H. injection H as <-.
  exists y, m, d. split; reflexivity.
Qed.

Lemma timestamp_str_some (t : N) (s : string) :
  timestamp_str t = Some s ->
  exists dt, now_utc t = Some dt /\ s = strftime TIMESTAMP_FORMAT dt.
Proof.
  unfold timestamp_str. destruct (now_utc t) as [dt|]; [|discriminate].
  intros H. exists dt. split; [reflexivity|]. cbv [option_map] in H. congruence.
Qed.

(** Closes a goal [String.leb s1 s2 = true] once the comparison has been
    reduced to nested [Z.compare]s whose [Gt] outcomes are contradictory. *)
Ltac lex_not_gt :=
  repeat (match goal with
          | |- context [Z.compare ?a ?b] =>
              destruct (Z.compare_spec a b); try (exfalso; lia); try reflexivity
          end).

(** ** C7 (confirmed) *)

(** C7: for clock readings [t1 <= t2] (whole seconds), the timestamp of
    [t1] is lexicographically at most that of [t2]. *)
Theorem timestamp_str_monotone (t1 t2 : N) (s1 s2 : string) :
  (t1 <= t2)%N -> timestamp_str t1 = Some s1 -> timestamp_str t2 = Some s2 ->
  String.leb s1 s2 = true.
Proof.
  intros Ht H1 H2.
  destruct (timestamp_str_some t1 s1 H1) as [dt1 [N1 ->]].
  destruct (timestamp_str_some t2 s2 H2) as [dt2 [N2 ->]].
  destruct (now_utc_fields t1 dt1 N1) as (Hy1 & Hm1 & Hd1 & Hh1 & Hmi1 & Hs1).
  destruct (now_utc_fields t2 dt2 N2) as (Hy2 & Hm2 & Hd2 & Hh2 & Hmi2 & Hs2).
  rewrite !strftime_in_range by assumption.
  unfold String.leb.
  rewrite compare_digits_app by (simpl; lia). rewrite compare_cons_same.
  rewrite compare_digits_app by (simpl; lia). rewrite compare_cons_same.
  rewrite compare_digits_app by (simpl; lia). rewrite compare_cons_same.
  rewrite compare_digits_app by (simpl; lia).
  rewrite compare_digits_app by (simpl; lia).
  rewrite compare_digits_app by (simpl; lia).
  destruct (now_utc_some t1 dt1 N1) as (y1 & m1 & d1 & Y1 & ->).
  destruct (now_utc_some t2 dt2 N2) as (y2 & m2 & d2 & Y2 & ->).
  cbn [year month day hour minute second] in *.
  set (z1 := Z.of_N t1) in *. set (z2 := Z.of_N t2) in *.
  assert (Hz : 0 <= z1 <= z2) by (unfold z1, z2; lia).
  pose proof (Z.div_mod z1 86400 ltac:(lia)). pose proof (Z.div_mod z2 86400 ltac:(lia)).
  pose proof (Z.mod_pos_bound z1 86400 ltac:(lia)).
  pose proof (Z.mod_pos_bound z2 86400 ltac:(lia)).
  assert (Hdays : z1 / 86400 <= z2 / 86400) by (apply Z.div_le_mono; lia).
  destruct (Z.le_gt_cases (z2 / 86400) (z1 / 86400)) as [Heq|Hlt].
  - assert (Hsame : z1 / 86400 = z2 / 86400) by lia.
    rewrite Hsame, Y2 in Y1. injection Y1 as <- <- <-.
    destruct (hms_decompose (z1 mod 86400) ltac:(lia)) as (E1 & B1 & C1).
    destruct (hms_decompose (z2 mod 86400) ltac:(lia)) as (E2 & B2 & C2).
    assert (Hsod : z1 mod 86400 <= z2 mod 86400) by lia.
    lex_not_gt.
  - pose proof (ymd_of_days_strict_mono (z1 / 86400) (z2 / 86400)
                  ltac:(split; [apply Z.div_pos; lia | lia])) as Hmono.
    rewrite Y1, Y2 in Hmono.
    lex_not_gt.
Qed.

(** ** Extras *)

(** Extra: two clock readings [t1 < t2] (whole seconds) give different
    timestamps, the first strictly before the second in lexicographic order:
    distinct seconds never share a timestamp. *)
Theorem timestamp_str_strictly_increasing (t1 t2 : N) (s1 s2 : string) :
  (t1 < t2)%N -> timestamp_str t1 = Some s1 -> timestamp_str t2 = Some s2 ->
  String.compare s1 s2 = Lt.
Proof.
  intros Ht H1 H2.
  destruct (timestamp_str_some t1 s1 H1) as [dt1 [N1 ->]].
  destruct (timestamp_str_some t2 s2 H2) as [dt2 [N2 ->]].
  destruct (now_utc_fields t1 dt1 N1) as (Hy1 & Hm1 & Hd1 & Hh1 & Hmi1 & Hs1).
  destruct (now_utc_fields t2 dt2 N2) as (Hy2 & Hm2 & Hd2 & Hh2 & Hmi2 & Hs2).
  rewrite !strftime_in_range by assumption.
  rewrite compare_digits_app by (simpl; lia). rewrite compare_cons_same.
  rewrite compare_digits_app by (simpl; lia). rewrite compare_cons_same.
  rewrite compare_digits_app by (simpl; lia). rewrite compare_cons_same.
  rewrite compare_digits_app by (simpl; lia).
  rewrite compare_digits_app by (simpl; lia).
  rewrite compare_digits_app by (simpl; lia).
  destruct (now_utc_some t1 dt1 N1) as (y1 & m1 & d1 & Y1 & ->).
  destruct (now_utc_some t2 dt2 N2) as (y2 & m2 & d2 & Y2 & ->).
  cbn [year month day hour minute second] in *.
  set (z1 := Z.of_N t1) in *. set (z2 := Z.of_N t2) in *.
  assert (Hz : 0 <= z1 < z2) by (unfold z1, z2; lia).
  pose proof (Z.div_mod z1 86400 ltac:(lia)). pose proof (Z.div_mod z2 86400 ltac:(lia)).
  pose proof (Z.mod_pos_bound z1 86400 ltac:(lia)).
  pose proof (Z.mod_pos_bound z2 86400 ltac:(lia)).
  assert (Hdays : z1 / 86400 <= z2 / 86400) by (apply Z.div_le_mono; lia).
  destruct (Z.le_gt_cases (z2 / 86400) (z1 / 86400)) as [Heq|Hlt].
  - assert (Hsame : z1 / 86400 = z2 / 86400) by lia.
    rewrite Hsame, Y2 in Y1. injection Y1 as <- <- <-.
    destruct (hms_decompose (z1 mod 86400) ltac:(lia)) as (E1 & B1 & C1).
    destruct (hms_decompose (z2 mod 86400) ltac:(lia)) as (E2 & B2 & C2).
    assert (Hsod : z1 mod 86400 < z2 mod 86400) by lia.
    lex_not_gt.
  - pose proof (ymd_of_days_strict_mono (z1 / 86400) (z2 / 86400)
                  ltac:(split; [apply Z.div_pos; lia | lia])) as Hmono.
    rewrite Y1, Y2 in Hmono.
    lex_not_gt.
Qed.

(** ** Concrete runs *)

Lemma timestamp_str_matches_pattern_witness :
  timestamp_str 1709821385%N = Some "2024-03-07_142305"
  /\ matches PATTERN "2024-03-07_142305" = true.
Proof.
  assert (H : timestamp_str 1709821385%N = Some "2024-03-07_142305") by reflexivity.
  split; [exact H|].
  exact (timestamp_str_matches_pattern 1709821385%N "2024-03-07_142305" H).
Defined.

Lemma timestamp_str_monotone_witness :
  (1704067199 <= 1704067200)%N
  /\ timestamp_str 1704067199%N = Some "2023-12-31_235959"
  /\ timestamp_str 1704067200%N = Some "2024-01-01_000000"
  /\ String.leb "2023-12-31_235959" "2024-01-01_000000" = true.
Proof.
  assert (H1 : (1704067199 <= 1704067200)%N) by lia.
  assert (H2 : timestamp_str 1704067199%N = Some "2023-12-31_235959") by reflexivity.
  assert (H3 : timestamp_str 1704067200%N = Some "2024-01-01_000000") by reflexivity.
  split; [exact H1|]. split; [exact H2|]. split; [exact H3|].
  exact (timestamp_str_monotone 1704067199%N 1704067200%N _ _ H1 H2 H3).
Defined.

Lemma timestamp_str_strictly_increasing_witness :
  (1709821385 < 1709821386)%N
  /\ timestamp_str 1709821385%N = Some "2024-03-07_142305"
  /\ timestamp_str 1709821386%N = Some "2024-03-07_142306"
  /\ String.compare "2024-03-07_142305" "2024-03-07_142306" = Lt.
Proof.
  assert (H1 : (1709821385 < 1709821386)%N) by lia.
  assert (H2 : timestamp_str 1709821385%N = Some "2024-03-07_142305") by reflexivity.
  assert (H3 : timestamp_str 1709821386%N = Some "2024-03-07_142306") by reflexivity.
  split; [exact H1|]. split; [exact H2|]. split; [exact H3|].
  exact (timestamp_str_strictly_increasing 1709821385%N 1709821386%N _ _ H1 H2 H3).
Defined.

End TimestampProofs.
